(** * CALIMA Star reinflector: a shallow embedding of
      [camel_tools/calima_star/reinflector.py] and its properties. *)

From Stdlib Require Import Ascii String.
From stdpp Require Import gmap strings list.

Local Open Scope string_scope.
Local Open Scope list_scope.

(** ** Python dictionaries with string keys and values

    A Python [dict] keeps its keys in insertion order and that order is
    observable (the validation loop of [reinflect] raises for the first
    offending key), so a dictionary is an association list.  Lookup takes
    the first binding of a key. *)
Module PyDict.

Abbreviation t := (list (string * string)).

(** [d.get(k)] *)
Fixpoint get (d : t) (k : string) : option string :=
  match d with
  | [] => None
  | (k', v) :: d' => if decide (k = k') then Some v else get d' k
  end.

(** [k in d] *)
Definition mem (d : t) (k : string) : bool :=
  match get d k with Some _ => true | None => false end.

(** [d.keys()], in iteration order *)
Definition keys (d : t) : list string := d.*1.

(** [d[k] = v]: an existing key keeps its position, a new one goes last. *)
Fixpoint set (d : t) (k v : string) : t :=
  match d with
  | [] => [(k, v)]
  | (k', v') :: d' =>
      if decide (k = k') then (k, v) :: d' else (k', v') :: set d' k v
  end.

End PyDict.

(** ** Exceptions *)

Inductive Error : Type :=
| ReinflectorError (msg : string)
| InvalidReinflectorFeature (feat : string)
| InvalidReinflectorFeatureValue (feat value : string)
| KeyError (key : string).

(** Computations that may raise. *)
Definition raises (A : Type) : Type := Error + A.

Definition bind {A B : Type} (m : raises A) (k : A → raises B) : raises B :=
  match m with
  | inl e => inl e
  | inr a => k a
  end.

Notation "'do' x <- m ;; k" := (bind m (fun x => k))
  (at level 10, x name, m at level 99, k at level 200).

(** [d[k]], raising [KeyError] on a missing key. *)
Definition index (d : PyDict.t) (k : string) : raises string :=
  match PyDict.get d k with
  | Some v => inr v
  | None => inl (KeyError k)
  end.

(** ** Module constants *)

Definition _CLITIC_FEATS : gset string :=
  {[ "enc0"; "prc0"; "prc1"; "prc2"; "prc3" ]}.

Definition _IGNORED_FEATS : gset string :=
  {[ "diac"; "lex"; "bw"; "gloss"; "source"; "stem";
     "stemcat"; "lmm"; "dediac"; "caphi"; "catib6";
     "ud"; "d3seg"; "atbseg"; "d2seg"; "d1seg"; "d1tok";
     "d2tok"; "atbtok"; "d3tok"; "root"; "pattern";
     "freq"; "POS_prob"; "stemgloss" ]}.

Definition _SPECIFIED_FEATS : gset string := {[ "form_gen"; "form_num" ]}.

Definition _CLITIC_IGNORED_FEATS : gset string := {[ "stt"; "cas"; "mod" ]}.

Definition _FILTER_FEATS : gset string := {[ "pos"; "lex" ]}.

(** [_LEMMA_SPLIT_RE = re.compile(r'-|_')] matches one character. *)
Definition _LEMMA_SPLIT_RE (c : ascii) : bool :=
  bool_decide (c = "-"%char) || bool_decide (c = "_"%char).

(** [_LEMMA_SPLIT_RE.split(s)]: the pieces of [s] between the matches.
    The result of [re.split] is never empty, so it is given as its first
    piece and the list of the others. *)
Fixpoint _LEMMA_SPLIT_RE_split (s : string) : string * list string :=
  match s with
  | EmptyString => (EmptyString, [])
  | String c s' =>
      let '(piece, pieces) := _LEMMA_SPLIT_RE_split s' in
      if _LEMMA_SPLIT_RE c then (EmptyString, piece :: pieces)
      else (String c piece, pieces)
  end.

(** ** The database, as far as the reinflector reads it *)

(** [db.flags.generation] and [db.defines]; a feature is defined with an
    open domain ([None]) or with the collection of its legal values. *)
Record CalimaStarDB : Type := {
  flags_generation : bool;
  defines : gmap string (option (gset string))
}.

(** What the constructor may be handed: a database or something else. *)
Inductive PyObject : Type :=
| DBObject (db : CalimaStarDB)
| OtherObject.

(** One invocation of the generator: the lemma and the feature set. *)
Abbreviation GenCall := (string * PyDict.t)%type.

Section Reinflector.

(** The generator's results are opaque to the reinflector. *)
Context {Form : Type}.

(** [camel_tools.utils.dediac.dediac_ar] *)
Variable dediac_ar : string → string.

(** [CalimaStarAnalyzer.analyze(word)] returns a list of analyses. *)
Record CalimaStarAnalyzer : Type := {
  analyze : string → list PyDict.t
}.

(** [CalimaStarGenerator.generate(lemma, feats)] returns a list of
    forms or [None]. *)
Record CalimaStarGenerator : Type := {
  generate : string → PyDict.t → option (list Form)
}.

(** The constructors [CalimaStarAnalyzer(db)] and
    [CalimaStarGenerator(db)]. *)
Variable new_analyzer : CalimaStarDB → CalimaStarAnalyzer.
Variable new_generator : CalimaStarDB → CalimaStarGenerator.

Record CalimaStarReinflector : Type := {
  _db : CalimaStarDB;
  _analyzer : CalimaStarAnalyzer;
  _generator : CalimaStarGenerator
}.

(** [CalimaStarReinflector.__init__] *)
Definition __init__ (db : PyObject) : raises CalimaStarReinflector :=
  match db with
  | OtherObject => inl (ReinflectorError "DB is not an instance of CalimaStarDB")
  | DBObject db =>
      if negb (flags_generation db)
      then inl (ReinflectorError "DB does not support reinflection")
      else inr {| _db := db;
                  _analyzer := new_analyzer db;
                  _generator := new_generator db |}
  end.

(** Lines 83-88: the loop over the keys of [feats]. *)
Fixpoint validate_loop (db : CalimaStarDB) (feats : PyDict.t)
    (ks : list string) : raises unit :=
  match ks with
  | [] => inr ()
  | feat :: ks' =>
      match defines db !! feat with
      | None => inl (InvalidReinflectorFeature feat)
      | Some None => validate_loop db feats ks'
      | Some (Some values) =>
          do value <- index feats feat ;;
          if bool_decide (value ∉ values)
          then inl (InvalidReinflectorFeatureValue feat value)
          else validate_loop db feats ks'
      end
  end.

Definition validate (db : CalimaStarDB) (feats : PyDict.t) : raises unit :=
  validate_loop db feats (PyDict.keys feats).

(** Lines 90-94: is one of the clitic features a key of [feats]? *)
Definition compute_has_clitics (feats : PyDict.t) : bool :=
  existsb (λ feat, PyDict.mem feats feat) (elements _CLITIC_FEATS).

(** Lines 99-108: [None] stands for [continue], otherwise the lemma. *)
Definition analysis_filter (word : string) (feats analysis : PyDict.t)
    : raises (option string) :=
  do diac <- index analysis "diac" ;;
  if bool_decide (dediac_ar diac ≠ dediac_ar word) then inr None
  else
    do pos_differs <-
      (if PyDict.mem feats "pos"
       then do fpos <- index feats "pos" ;;
            do apos <- index analysis "pos" ;;
            inr (bool_decide (fpos ≠ apos))
       else inr false) ;;
    if pos_differs then inr None
    else
      do lex <- index analysis "lex" ;;
      let lemma := (_LEMMA_SPLIT_RE_split lex).1 in
      do lex_differs <-
        (if PyDict.mem feats "lex"
         then do flex <- index feats "lex" ;;
              inr (bool_decide (flex ≠ lemma))
         else inr false) ;;
      if lex_differs then inr None else inr (Some lemma).

(** Lines 113-128: the loop over [analysis.keys()], on the state
    [(is_valid, generate_feats)]; [break] returns the state as it is. *)
Fixpoint merge_loop (analysis feats : PyDict.t) (has_clitics : bool)
    (ks : list string) (generate_feats : PyDict.t)
    : raises (bool * PyDict.t) :=
  match ks with
  | [] => inr (true, generate_feats)
  | feat :: ks' =>
      if bool_decide (feat ∈ _IGNORED_FEATS) then
        merge_loop analysis feats has_clitics ks' generate_feats
      else if bool_decide (feat ∈ _SPECIFIED_FEATS)
              && negb (PyDict.mem feats feat) then
        merge_loop analysis feats has_clitics ks' generate_feats
      else if has_clitics && bool_decide (feat ∈ _CLITIC_IGNORED_FEATS) then
        merge_loop analysis feats has_clitics ks' generate_feats
      else if PyDict.mem feats feat then
        do avalue <- index analysis feat ;;
        if bool_decide (avalue ≠ "na") then
          do fvalue <- index feats feat ;;
          merge_loop analysis feats has_clitics ks'
            (PyDict.set generate_feats feat fvalue)
        else inr (false, generate_feats)
      else
        do avalue <- index analysis feat ;;
        if bool_decide (avalue ≠ "na") then
          merge_loop analysis feats has_clitics ks'
            (PyDict.set generate_feats feat avalue)
        else merge_loop analysis feats has_clitics ks' generate_feats
  end.

(** Lines 110-128. *)
Definition feature_merger (analysis feats : PyDict.t) (has_clitics : bool)
    : raises (bool * PyDict.t) :=
  merge_loop analysis feats has_clitics (PyDict.keys analysis) [].

(** Lines 98-133: the loop over the analyses.  [results] is the deque
    of forms; [calls] records the invocations of the generator so far.
    An exception leaves the loop with the invocations already made. *)
Fixpoint analyses_loop (self : CalimaStarReinflector) (word : string)
    (feats : PyDict.t) (has_clitics : bool) (analyses : list PyDict.t)
    (results : list Form) (calls : list GenCall)
    : raises (list Form) * list GenCall :=
  match analyses with
  | [] => (inr results, calls)
  | analysis :: analyses' =>
      match analysis_filter word feats analysis with
      | inl e => (inl e, calls)
      | inr None =>
          analyses_loop self word feats has_clitics analyses' results calls
      | inr (Some lemma) =>
          match feature_merger analysis feats has_clitics with
          | inl e => (inl e, calls)
          | inr (false, _) =>
              analyses_loop self word feats has_clitics analyses'
                results calls
          | inr (true, generate_feats) =>
              let generated :=
                generate (_generator self) lemma generate_feats in
              let calls' := calls ++ [(lemma, generate_feats)] in
              match generated with
              | Some forms =>
                  analyses_loop self word feats has_clitics analyses'
                    (results ++ forms) calls'
              | None =>
                  analyses_loop self word feats has_clitics analyses'
                    results calls'
              end
          end
      end
  end.

(** [CalimaStarReinflector.reinflect], run after the generator has
    been invoked [calls] times; it gives the value returned or the
    exception raised, and the invocations of the generator after it. *)
Definition reinflect (self : CalimaStarReinflector) (word : string)
    (feats : PyDict.t) (calls : list GenCall)
    : raises (list Form) * list GenCall :=
  let analyses := analyze (_analyzer self) word in
  if negb (bool_decide (analyses ≠ [])) || (length analyses =? 0)%nat
  then (inr [], calls)
  else
    match validate (_db self) feats with
    | inl e => (inl e, calls)
    | inr _ =>
        let has_clitics := compute_has_clitics feats in
        analyses_loop self word feats has_clitics analyses [] calls
    end.

End Reinflector.

(** ** The call on a store of objects

    Python hands dictionaries around by reference: the caller keeps
    [feats], the analyzer keeps the analyses it returns, and the
    instance keeps its attributes between calls. Here the dictionaries
    are objects of a store, addressed by numbers, and the instance is
    part of the state a call starts from and ends in, so that what a
    call writes is there for the next call to read. *)

Section ReinflectorOnStore.

Context {Form : Type}.

(** [camel_tools.utils.dediac.dediac_ar] *)
Variable dediac_ar : string → string.

(** The dictionary at an address. *)
Definition deref (h : gmap nat PyDict.t) (r : nat) : PyDict.t :=
  default [] (h !! r).

(** [d[k] = v] on the dictionary at [r]. *)
Definition setitem (h : gmap nat PyDict.t) (r : nat) (k v : string)
    : gmap nat PyDict.t :=
  <[r := PyDict.set (deref h r) k v]> h.

(** The attributes of an instance. Its analyzer returns the addresses
    of the analyses it holds for a word. *)
Record ReinflectorObject : Type := {
  obj_db : CalimaStarDB;
  obj_analyze : string → list nat;
  obj_generator : @CalimaStarGenerator Form
}.

(** What a call can read and write: the instance, the dictionaries and
    the record of the generator's invocations. *)
Record World : Type := {
  self_obj : ReinflectorObject;
  heap : gmap nat PyDict.t;
  log : list GenCall
}.

(** Lines 113-128, with [analysis], [feats] and [generate_feats] given
    by their addresses; the loop writes to [generate_feats] and returns
    [is_valid]. *)
Fixpoint merge_loop_store (h : gmap nat PyDict.t)
    (analysis feats generate_feats : nat) (has_clitics : bool)
    (ks : list string) : raises bool * gmap nat PyDict.t :=
  match ks with
  | [] => (inr true, h)
  | feat :: ks' =>
      if bool_decide (feat ∈ _IGNORED_FEATS) then
        merge_loop_store h analysis feats generate_feats has_clitics ks'
      else if bool_decide (feat ∈ _SPECIFIED_FEATS)
              && negb (PyDict.mem (deref h feats) feat) then
        merge_loop_store h analysis feats generate_feats has_clitics ks'
      else if has_clitics && bool_decide (feat ∈ _CLITIC_IGNORED_FEATS) then
        merge_loop_store h analysis feats generate_feats has_clitics ks'
      else if PyDict.mem (deref h feats) feat then
        match index (deref h analysis) feat with
        | inl e => (inl e, h)
        | inr avalue =>
            if bool_decide (avalue ≠ "na") then
              match index (deref h feats) feat with
              | inl e => (inl e, h)
              | inr fvalue =>
                  merge_loop_store (setitem h generate_feats feat fvalue)
                    analysis feats generate_feats has_clitics ks'
              end
            else (inr false, h)
        end
      else
        match index (deref h analysis) feat with
        | inl e => (inl e, h)
        | inr avalue =>
            if bool_decide (avalue ≠ "na") then
              merge_loop_store (setitem h generate_feats feat avalue)
                analysis feats generate_feats has_clitics ks'
            else
              merge_loop_store h analysis feats generate_feats has_clitics ks'
        end
  end.

(** Lines 98-133, over the addresses of the analyses. Line 111 makes a
    new dictionary: it gets an address that is not in use. *)
Fixpoint analyses_loop_store (generator : @CalimaStarGenerator Form)
    (word : string) (feats : nat) (has_clitics : bool) (analyses : list nat)
    (results : list Form) (h : gmap nat PyDict.t) (calls : list GenCall)
    : raises (list Form) * gmap nat PyDict.t * list GenCall :=
  match analyses with
  | [] => (inr results, h, calls)
  | analysis :: analyses' =>
      match analysis_filter dediac_ar word (deref h feats)
              (deref h analysis) with
      | inl e => (inl e, h, calls)
      | inr None =>
          analyses_loop_store generator word feats has_clitics analyses'
            results h calls
      | inr (Some lemma) =>
          let generate_feats := fresh (dom h) in
          let h1 := <[generate_feats := []]> h in
          match merge_loop_store h1 analysis feats generate_feats
                  has_clitics (PyDict.keys (deref h1 analysis)) with
          | (inl e, h2) => (inl e, h2, calls)
          | (inr false, h2) =>
              analyses_loop_store generator word feats has_clitics
                analyses' results h2 calls
          | (inr true, h2) =>
              let generated :=
                generate generator lemma (deref h2 generate_feats) in
              let calls' := calls ++ [(lemma, deref h2 generate_feats)] in
              match generated with
              | Some forms =>
                  analyses_loop_store generator word feats has_clitics
                    analyses' (results ++ forms) h2 calls'
              | None =>
                  analyses_loop_store generator word feats has_clitics
                    analyses' results h2 calls'
              end
          end
      end
  end.

(** [CalimaStarReinflector.reinflect] on the state [w], with [feats]
    given by its address: what it returns or raises, and the state it
    leaves. *)
Definition reinflect_store (w : World) (word : string) (feats : nat)
    : raises (list Form) * World :=
  let analyses := obj_analyze (self_obj w) word in
  if negb (bool_decide (analyses ≠ [])) || (length analyses =? 0)%nat
  then (inr [], w)
  else
    match validate (obj_db (self_obj w)) (deref (heap w) feats) with
    | inl e => (inl e, w)
    | inr _ =>
        let has_clitics := compute_has_clitics (deref (heap w) feats) in
        let '(outcome, h, calls) :=
          analyses_loop_store (obj_generator (self_obj w)) word feats
            has_clitics analyses [] (heap w) (log w) in
        (outcome, {| self_obj := self_obj w; heap := h; log := calls |})
    end.

(** The instance of a state with the analyses themselves in place of
    their addresses. *)
Definition reinflector_of (w : World) : @CalimaStarReinflector Form :=
  {| _db := obj_db (self_obj w);
     _analyzer :=
       {| analyze := λ word,
            map (deref (heap w)) (obj_analyze (self_obj w) word) |};
     _generator := obj_generator (self_obj w) |}.

End ReinflectorOnStore.

(** ** Notions used to state the properties *)

(** An analysis without its state, case and mood entries. *)
Definition without_clitic_ignored (analysis : PyDict.t) : PyDict.t :=
  filter (λ kv, kv.1 ∉ _CLITIC_IGNORED_FEATS) analysis.

(** A key of the overrides fails validation: the schema does not define
    it, or defines it with a set of values that lacks the override's. *)
Definition offending (db : CalimaStarDB) (feats : PyDict.t)
    (feat : string) : Prop :=
  defines db !! feat = None
  ∨ ∃ values value,
      defines db !! feat = Some (Some values)
      ∧ PyDict.get feats feat = Some value
      ∧ value ∉ values.

(** The feature falls under the default rule, is overridden, and the
    analysis has the sentinel for it. *)
Definition na_conflict (analysis feats : PyDict.t) (has_clitics : bool)
    (feat : string) : bool :=
  negb (bool_decide (feat ∈ _IGNORED_FEATS))
  && negb (has_clitics && bool_decide (feat ∈ _CLITIC_IGNORED_FEATS))
  && PyDict.mem feats feat
  && bool_decide (PyDict.get analysis feat = Some "na").

(** What one feature of an accepted analysis contributes to the feature
    set for generation. *)
Definition merged_value (analysis feats : PyDict.t) (has_clitics : bool)
    (feat : string) : option string :=
  match PyDict.get analysis feat with
  | None => None
  | Some avalue =>
      if bool_decide (feat ∈ _IGNORED_FEATS) then None
      else if bool_decide (feat ∈ _SPECIFIED_FEATS)
              && negb (PyDict.mem feats feat) then None
      else if has_clitics && bool_decide (feat ∈ _CLITIC_IGNORED_FEATS)
      then None
      else
        match PyDict.get feats feat with
        | Some fvalue => Some fvalue
        | None => if bool_decide (avalue ≠ "na") then Some avalue else None
        end
  end.

(** The state of the merge loop after [feat], when it does not break. *)
Definition merge_step (analysis feats : PyDict.t) (has_clitics : bool)
    (feat : string) (generate_feats : PyDict.t) : PyDict.t :=
  match merged_value analysis feats has_clitics feat with
  | Some value => PyDict.set generate_feats feat value
  | None => generate_feats
  end.

(** The analyzer's guarantee: an analysis has its diacritized form, its
    lexeme identifier and its part of speech. *)
Definition well_formed (analysis : PyDict.t) : Prop :=
  is_Some (PyDict.get analysis "diac")
  ∧ is_Some (PyDict.get analysis "lex")
  ∧ is_Some (PyDict.get analysis "pos").

(** The invocation of the generator an analysis leads to: none when the
    filter drops it or the merger rejects it. *)
Definition invocation (dediac_ar : string → string) (word : string)
    (feats : PyDict.t) (has_clitics : bool) (analysis : PyDict.t)
    : option GenCall :=
  match analysis_filter dediac_ar word feats analysis with
  | inr (Some lemma) =>
      match feature_merger analysis feats has_clitics with
      | inr (true, generate_feats) => Some (lemma, generate_feats)
      | _ => None
      end
  | _ => None
  end.

(** The forms one invocation adds to the results. *)
Definition generated_forms {Form : Type}
    (self : @CalimaStarReinflector Form) (call : GenCall) : list Form :=
  default [] (generate (_generator self) call.1 call.2).

(** The forms one analysis adds to the results. *)
Definition contribution {Form : Type} (dediac_ar : string → string)
    (self : @CalimaStarReinflector Form) (word : string) (feats : PyDict.t)
    (has_clitics : bool) (analysis : PyDict.t) : list Form :=
  match invocation dediac_ar word feats has_clitics analysis with
  | Some call => generated_forms self call
  | None => []
  end.

(** An outcome of the loop over the analyses, seen from a state with
    [results] already collected and [calls] already made. *)
Definition after {Form : Type} (results : list Form) (calls : list GenCall)
    (outcome : raises (list Form) * list GenCall)
    : raises (list Form) * list GenCall :=
  (match outcome.1 with
   | inl e => inl e
   | inr forms => inr (results ++ forms)
   end, calls ++ outcome.2).

(** The feature set handed to the generator for [analysis]. *)
Definition generation_feats_ok (analysis feats generate_feats : PyDict.t)
    : Prop :=
  (∀ k, k ∈ PyDict.keys generate_feats →
        k ∈ PyDict.keys analysis ∧ k ∉ _IGNORED_FEATS)
  ∧ (∀ k, PyDict.get analysis k = None → PyDict.get generate_feats k = None)
  ∧ (∀ k v, PyDict.get generate_feats k = Some v →
        PyDict.get feats k = Some v
        ∨ (PyDict.get feats k = None
           ∧ PyDict.get analysis k = Some v ∧ v ≠ "na")).

(** ** Sample data *)

(** A stand-in for [dediac_ar] on transliterated text: it drops the
    short vowels and the gemination mark. *)
Fixpoint sample_dediac (s : string) : string :=
  match s with
  | EmptyString => EmptyString
  | String c s' =>
      if bool_decide (c ∈ ["a"; "i"; "u"; "o"; "~"]%char)
      then sample_dediac s'
      else String c (sample_dediac s')
  end.

Definition sample_db : CalimaStarDB :=
  {| flags_generation := true;
     defines := {[ "pos" := Some {[ "noun"; "verb" ]};
                   "gen" := Some {[ "m"; "f" ]};
                   "num" := Some {[ "s"; "d"; "p" ]};
                   "stt" := Some {[ "d"; "i"; "c" ]};
                   "cas" := Some {[ "n"; "a"; "g" ]};
                   "mod" := Some {[ "i"; "s"; "j" ]};
                   "enc0" := Some {[ "0"; "3ms_poss"; "3ms_dobj" ]};
                   "lex" := None;
                   "gloss" := None ]} |}.

Definition sample_db_no_generation : CalimaStarDB :=
  {| flags_generation := false; defines := defines sample_db |}.

Definition sample_noun : PyDict.t :=
  [("diac", "kitAb"); ("lex", "kitAb_1"); ("pos", "noun"); ("gen", "m");
   ("num", "s"); ("stt", "i"); ("cas", "n"); ("mod", "na"); ("enc0", "0");
   ("gloss", "book")].

Definition sample_verb : PyDict.t :=
  [("diac", "katab"); ("lex", "katab-u_1"); ("pos", "verb"); ("gen", "m");
   ("num", "s"); ("stt", "na"); ("cas", "na"); ("mod", "i"); ("enc0", "0");
   ("gloss", "na")].

Definition sample_analyzer : CalimaStarAnalyzer :=
  {| analyze := λ word,
       if bool_decide (sample_dediac word = "ktb")
       then [sample_noun; sample_verb] else
       if bool_decide (sample_dediac word = "ktAb")
       then [sample_noun] else [] |}.

(** A generator whose forms show what it was asked for. *)
Definition sample_generator : @CalimaStarGenerator GenCall :=
  {| generate := λ lemma feats,
       if bool_decide (lemma = "") then None else Some [(lemma, feats)] |}.

Definition sample_reinflector : @CalimaStarReinflector GenCall :=
  {| _db := sample_db;
     _analyzer := sample_analyzer;
     _generator := sample_generator |}.

(** The plural of [sample_noun], homograph of [sample_verb] once the
    diacritics are gone. *)
Definition sample_plural : PyDict.t :=
  [("diac", "kutub"); ("lex", "kitAb_1"); ("pos", "noun"); ("gen", "m");
   ("num", "p"); ("stt", "i"); ("cas", "n"); ("mod", "na"); ("enc0", "0");
   ("gloss", "books")].

(** A reinflector whose analyzer reads every word as verb, noun, verb. *)
Definition sample_ambiguous : @CalimaStarReinflector GenCall :=
  {| _db := sample_db;
     _analyzer := {| analyze := λ _,
                       [sample_verb; sample_plural; sample_verb] |};
     _generator := sample_generator |}.

(** A state with the overrides at address 0 and the analyses of
    [sample_reinflector] at addresses 1 and 2. *)
Definition sample_world : @World GenCall :=
  {| self_obj :=
       {| obj_db := sample_db;
          obj_analyze := λ word,
            if bool_decide (sample_dediac word = "ktb") then [1; 2] else
            if bool_decide (sample_dediac word = "ktAb") then [1] else [];
          obj_generator := sample_generator |};
     heap := {[ 0 := [("gen", "f")]; 1 := sample_noun; 2 := sample_verb ]};
     log := [] |}.

(** ** Facts about dictionaries *)
Module PyDictFacts.

Lemma get_set_eq (d : PyDict.t) k v :
  PyDict.get (PyDict.set d k v) k = Some v.
Proof.
  induction d as [|[k' v'] d IH]; cbn.
  - by rewrite decide_True.
  - destruct (decide (k = k')) as [->|Hne]; cbn.
    + by rewrite decide_True.
    + by rewrite decide_False.
Qed.

Lemma get_set_ne (d : PyDict.t) k k' v :
  k ≠ k' → PyDict.get (PyDict.set d k v) k' = PyDict.get d k'.
Proof.
  intros Hne. induction d as [|[k0 v0] d IH]; cbn.
  - by rewrite decide_False.
  - destruct (decide (k = k0)) as [->|Hne0]; cbn.
    + by rewrite !decide_False.
    + by rewrite IH.
Qed.

Lemma get_Some_keys (d : PyDict.t) k :
  is_Some (PyDict.get d k) ↔ k ∈ PyDict.keys d.
Proof.
  unfold PyDict.keys. induction d as [|[k' v'] d IH]; cbn.
  - split; [intros [? ?]; done | intros H; inversion H].
  - destruct (decide (k = k')) as [->|Hne].
    + split; [intros _; left | eauto].
    + rewrite IH. split; [by right | ].
      intros H. inversion H; [done | assumption].
Qed.

Lemma get_None_keys (d : PyDict.t) k :
  PyDict.get d k = None ↔ k ∉ PyDict.keys d.
Proof. rewrite <- get_Some_keys, eq_None_not_Some. done. Qed.

Lemma mem_true (d : PyDict.t) k :
  PyDict.mem d k = true ↔ is_Some (PyDict.get d k).
Proof.
  unfold PyDict.mem. destruct (PyDict.get d k); split; try done; eauto.
Qed.

Lemma mem_false (d : PyDict.t) k :
  PyDict.mem d k = false ↔ PyDict.get d k = None.
Proof. unfold PyDict.mem. by destruct (PyDict.get d k). Qed.

Lemma get_filter_key (P : string → Prop) `{∀ k, Decision (P k)}
    (d : PyDict.t) k :
  PyDict.get (filter (λ kv, P kv.1) d) k
  = if decide (P k) then PyDict.get d k else None.
Proof.
  induction d as [|[k' v'] d IH].
  - cbn. by destruct (decide (P k)).
  - rewrite filter_cons. cbn [fst].
    destruct (decide (P k')) as [HP|HP]; cbn [PyDict.get].
    + destruct (decide (k = k')) as [->|Hne]; [by rewrite decide_True|done].
    + rewrite IH. destruct (decide (k = k')) as [->|Hne]; [|done].
      by destruct (decide (P k')).
Qed.

End PyDictFacts.

(** ** The merge loop *)

Lemma merge_loop_cons analysis feats has_clitics feat ks generate_feats :
  is_Some (PyDict.get analysis feat) →
  merge_loop analysis feats has_clitics (feat :: ks) generate_feats
  = if na_conflict analysis feats has_clitics feat
    then inr (false, generate_feats)
    else merge_loop analysis feats has_clitics ks
           (merge_step analysis feats has_clitics feat generate_feats).
Proof.
  intros [avalue Ha].
  cbn [merge_loop]. unfold na_conflict, merge_step, merged_value, index.
  rewrite Ha. unfold PyDict.mem.
  destruct (bool_decide (feat ∈ _IGNORED_FEATS)); [done|].
  destruct (bool_decide (feat ∈ _SPECIFIED_FEATS)),
    (PyDict.get feats feat) as [fvalue|],
    has_clitics, (bool_decide (feat ∈ _CLITIC_IGNORED_FEATS));
    cbn [negb andb bind]; try done;
    repeat case_bool_decide; simplify_eq; done.
Qed.

Lemma merge_step_get analysis feats has_clitics feat generate_feats k :
  PyDict.get (merge_step analysis feats has_clitics feat generate_feats) k
  = if decide (feat = k)
    then from_option Some (PyDict.get generate_feats k)
           (merged_value analysis feats has_clitics k)
    else PyDict.get generate_feats k.
Proof.
  unfold merge_step. destruct (decide (feat = k)) as [->|Hne].
  - destruct (merged_value analysis feats has_clitics k); cbn; [|done].
    apply PyDictFacts.get_set_eq.
  - destruct (merged_value analysis feats has_clitics feat); [|done].
    by apply PyDictFacts.get_set_ne.
Qed.

Lemma merge_loop_total analysis feats has_clitics ks generate_feats :
  Forall (λ k, is_Some (PyDict.get analysis k)) ks →
  ∃ is_valid generate_feats',
    merge_loop analysis feats has_clitics ks generate_feats
    = inr (is_valid, generate_feats').
Proof.
  intros Hks. revert generate_feats.
  induction Hks as [|feat ks Hfeat _ IH]; intros generate_feats.
  - by exists true, generate_feats.
  - rewrite merge_loop_cons by done.
    destruct (na_conflict analysis feats has_clitics feat); [|apply IH].
    by exists false, generate_feats.
Qed.

Lemma merge_loop_valid analysis feats has_clitics ks generate_feats b gf :
  Forall (λ k, is_Some (PyDict.get analysis k)) ks →
  merge_loop analysis feats has_clitics ks generate_feats = inr (b, gf) →
  b = negb (existsb (na_conflict analysis feats has_clitics) ks).
Proof.
  intros Hks. revert generate_feats.
  induction Hks as [|feat ks Hfeat _ IH]; intros generate_feats.
  - cbn. congruence.
  - rewrite merge_loop_cons by done. cbn [existsb].
    destruct (na_conflict analysis feats has_clitics feat); cbn [orb].
    + by intros [= <- <-].
    + apply IH.
Qed.

Lemma merge_loop_get analysis feats has_clitics ks generate_feats gf k :
  Forall (λ k, is_Some (PyDict.get analysis k)) ks →
  merge_loop analysis feats has_clitics ks generate_feats = inr (true, gf) →
  PyDict.get gf k
  = if decide (k ∈ ks)
    then from_option Some (PyDict.get generate_feats k)
           (merged_value analysis feats has_clitics k)
    else PyDict.get generate_feats k.
Proof.
  intros Hks. revert generate_feats.
  induction Hks as [|feat ks Hfeat _ IH]; intros generate_feats.
  - cbn. intros [= <-]. rewrite decide_False; [done|]. by intros ?%elem_of_nil.
  - rewrite merge_loop_cons by done.
    destruct (na_conflict analysis feats has_clitics feat); [done|].
    intros Hloop. rewrite (IH _ Hloop), merge_step_get.
    destruct (decide (k ∈ ks)) as [Hin|Hnin],
      (decide (k ∈ feat :: ks)) as [Hin'|Hnin'].
    + destruct (merged_value analysis feats has_clitics k) eqn:Hmv; [done|].
      cbn. by destruct (decide (feat = k)).
    + destruct Hnin'. by right.
    + apply elem_of_cons in Hin' as [->|?]; [|done].
      by rewrite decide_True.
    + rewrite decide_False; [done|]. intros ->. destruct Hnin'. left.
Qed.

Lemma keys_get_Forall (analysis : PyDict.t) :
  Forall (λ k, is_Some (PyDict.get analysis k)) (PyDict.keys analysis).
Proof. apply Forall_forall. intros k. by rewrite PyDictFacts.get_Some_keys. Qed.

Lemma feature_merger_total analysis feats has_clitics :
  ∃ is_valid generate_feats,
    feature_merger analysis feats has_clitics = inr (is_valid, generate_feats).
Proof. apply merge_loop_total, keys_get_Forall. Qed.

Lemma feature_merger_valid analysis feats has_clitics b gf :
  feature_merger analysis feats has_clitics = inr (b, gf) →
  b = negb (existsb (na_conflict analysis feats has_clitics)
              (PyDict.keys analysis)).
Proof. apply merge_loop_valid, keys_get_Forall. Qed.

Lemma merged_value_absent analysis feats has_clitics k :
  PyDict.get analysis k = None →
  merged_value analysis feats has_clitics k = None.
Proof. unfold merged_value. by intros ->. Qed.

Lemma feature_merger_get analysis feats has_clitics gf k :
  feature_merger analysis feats has_clitics = inr (true, gf) →
  PyDict.get gf k = merged_value analysis feats has_clitics k.
Proof.
  intros Hm.
  rewrite (merge_loop_get _ _ _ _ _ _ k (keys_get_Forall analysis) Hm).
  destruct (decide (k ∈ PyDict.keys analysis)) as [Hin|Hnin].
  - by destruct (merged_value analysis feats has_clitics k).
  - symmetry. cbn. by apply merged_value_absent, PyDictFacts.get_None_keys.
Qed.

(** ** The feature merger's classification *)


(** ** The filter *)

Section Properties.

Context {Form : Type} (dediac_ar : string → string).
Implicit Types (self : @CalimaStarReinflector Form).
Implicit Types (analysis feats : PyDict.t) (analyses : list PyDict.t).
Implicit Types (results : list Form) (calls : list GenCall).

Lemma index_Some (d : PyDict.t) k v : PyDict.get d k = Some v → index d k = inr v.
Proof. unfold index. by intros ->. Qed.

Lemma analysis_filter_total word feats analysis :
  well_formed analysis →
  ∃ o, analysis_filter dediac_ar word feats analysis = inr o.
Proof.
  intros ([diac Hd] & [lex Hl] & [pos Hp]). unfold analysis_filter.
  rewrite (index_Some _ _ _ Hd), (index_Some _ _ _ Hl), (index_Some _ _ _ Hp).
  unfold PyDict.mem, index. cbn [bind].
  case_bool_decide; [by eexists|].
  destruct (PyDict.get feats "pos"); cbn [bind];
    [case_bool_decide; [by eexists|]|];
    (destruct (PyDict.get feats "lex"); cbn [bind];
      [case_bool_decide|]; by eexists).
Qed.

(** ** The loop over the analyses *)

Lemma analyses_loop_cons self word feats has_clitics analysis analyses
    results calls o :
  analysis_filter dediac_ar word feats analysis = inr o →
  analyses_loop dediac_ar self word feats has_clitics
    (analysis :: analyses) results calls
  = match invocation dediac_ar word feats has_clitics analysis with
    | Some call =>
        analyses_loop dediac_ar self word feats has_clitics analyses
          (results ++ generated_forms self call) (calls ++ [call])
    | None =>
        analyses_loop dediac_ar self word feats has_clitics analyses
          results calls
    end.
Proof.
  intros Hf. cbn [analyses_loop]. unfold invocation. rewrite Hf.
  destruct o as [lemma|]; [|done].
  destruct (feature_merger_total analysis feats has_clitics)
    as ([] & gf & ->); [|done].
  unfold generated_forms. cbn [fst snd].
  destruct (generate (_generator self) lemma gf); cbn [default]; [done|].
  by rewrite app_nil_r.
Qed.

Lemma analyses_loop_raise self word feats has_clitics analysis analyses
    results calls e :
  analysis_filter dediac_ar word feats analysis = inl e →
  analyses_loop dediac_ar self word feats has_clitics
    (analysis :: analyses) results calls = (inl e, calls).
Proof. intros Hf. cbn [analyses_loop]. by rewrite Hf. Qed.

Lemma analyses_loop_after self word feats has_clitics analyses
    results calls :
  analyses_loop dediac_ar self word feats has_clitics analyses results calls
  = after results calls
      (analyses_loop dediac_ar self word feats has_clitics analyses [] []).
Proof.
  revert results calls.
  induction analyses as [|analysis analyses IH]; intros results calls.
  - unfold after. cbn. by rewrite !app_nil_r.
  - destruct (analysis_filter dediac_ar word feats analysis)
      as [e|o] eqn:Hf.
    + rewrite !(analyses_loop_raise _ _ _ _ _ _ _ _ e Hf).
      unfold after. cbn. by rewrite app_nil_r.
    + rewrite !(analyses_loop_cons _ _ _ _ _ _ _ _ o Hf).
      destruct (invocation dediac_ar word feats has_clitics analysis)
        as [call|]; [|apply IH].
      rewrite (IH (results ++ _)), (IH ([] ++ _)).
      unfold after. cbn [fst snd]. f_equal.
      * destruct (analyses_loop _ _ _ _ _ _ _ _).1; [done|].
        by rewrite app_nil_l, app_assoc.
      * by rewrite app_nil_l, app_assoc.
Qed.

Lemma analyses_loop_app self word feats has_clitics analyses1 analyses2
    results calls :
  analyses_loop dediac_ar self word feats has_clitics
    (analyses1 ++ analyses2) results calls
  = match analyses_loop dediac_ar self word feats has_clitics
            analyses1 results calls with
    | (inr results', calls') =>
        analyses_loop dediac_ar self word feats has_clitics
          analyses2 results' calls'
    | (inl e, calls') => (inl e, calls')
    end.
Proof.
  revert results calls.
  induction analyses1 as [|analysis analyses1 IH]; intros results calls.
  - done.
  - rewrite <- app_comm_cons.
    destruct (analysis_filter dediac_ar word feats analysis)
      as [e|o] eqn:Hf.
    + by rewrite !(analyses_loop_raise _ _ _ _ _ _ _ _ e Hf).
    + rewrite !(analyses_loop_cons _ _ _ _ _ _ _ _ o Hf).
      destruct (invocation dediac_ar word feats has_clitics analysis);
        apply IH.
Qed.

Lemma analyses_loop_spec self word feats has_clitics analyses
    results calls :
  Forall well_formed analyses →
  analyses_loop dediac_ar self word feats has_clitics analyses results calls
  = (inr (results
          ++ concat (map (contribution dediac_ar self word feats has_clitics)
                       analyses)),
     calls ++ omap (invocation dediac_ar word feats has_clitics) analyses).
Proof.
  intros Hwf. revert results calls.
  induction Hwf as [|analysis analyses Hwf _ IH]; intros results calls.
  - cbn. by rewrite !app_nil_r.
  - destruct (analysis_filter_total word feats analysis Hwf) as [o Hf].
    rewrite (analyses_loop_cons _ _ _ _ _ _ _ _ o Hf).
    cbn [map concat]. unfold contribution at 1.
    destruct (invocation dediac_ar word feats has_clitics analysis)
      as [call|] eqn:Hinv; rewrite IH; cbn; rewrite Hinv.
    + by rewrite <- !app_assoc.
    + done.
Qed.

Lemma analyses_loop_calls self word feats has_clitics analyses
    results calls :
  ∃ new,
    (analyses_loop dediac_ar self word feats has_clitics analyses
       results calls).2 = calls ++ new
    ∧ Forall (λ call, ∃ analysis,
                analysis ∈ analyses
                ∧ invocation dediac_ar word feats has_clitics analysis
                  = Some call) new.
Proof.
  revert results calls.
  induction analyses as [|analysis analyses IH]; intros results calls.
  - exists []. cbn. by rewrite app_nil_r.
  - destruct (analysis_filter dediac_ar word feats analysis)
      as [e|o] eqn:Hf.
    + rewrite (analyses_loop_raise _ _ _ _ _ _ _ _ e Hf).
      exists []. cbn. by rewrite app_nil_r.
    + rewrite (analyses_loop_cons _ _ _ _ _ _ _ _ o Hf).
      destruct (invocation dediac_ar word feats has_clitics analysis)
        as [call|] eqn:Hinv.
      * destruct (IH (results ++ generated_forms self call)
                    (calls ++ [call])) as (new & -> & Hnew).
        exists (call :: new). split; [by rewrite <- app_assoc|].
        constructor.
        -- exists analysis. split; [left|done].
        -- eapply Forall_impl; [exact Hnew|].
           intros c (a & Ha & Hc). exists a. split; [by right|done].
      * destruct (IH results calls) as (new & -> & Hnew).
        exists new. split; [done|].
        eapply Forall_impl; [exact Hnew|].
        intros c (a & Ha & Hc). exists a. split; [by right|done].
Qed.

(** ** Validation *)

Lemma offending_dec db feats feat :
  {offending db feats feat} + {¬ offending db feats feat}.
Proof.
  unfold offending.
  destruct (defines db !! feat) as [[values|]|]; [| |by left; left].
  - destruct (PyDict.get feats feat) as [value|].
    + destruct (decide (value ∈ values)) as [Hin|Hnin].
      * right. intros [?|(? & ? & ? & ? & ?)]; by simplify_eq.
      * left. right. by exists values, value.
    + right. intros [?|(? & ? & ? & ? & ?)]; by simplify_eq.
  - right. intros [?|(? & ? & ? & ? & ?)]; by simplify_eq.
Qed.

Lemma validate_loop_skip db feats ks1 ks :
  Forall (λ k, k ∈ PyDict.keys feats ∧ ¬ offending db feats k) ks1 →
  validate_loop db feats (ks1 ++ ks) = validate_loop db feats ks.
Proof.
  induction 1 as [|k ks1 [Hk Hok] _ IH]; [done|].
  cbn [app validate_loop].
  apply PyDictFacts.get_Some_keys in Hk as [value Hvalue].
  destruct (defines db !! k) as [[values|]|] eqn:Hdef.
  - rewrite (index_Some _ _ _ Hvalue). cbn [bind].
    case_bool_decide as Hnin; [|done].
    destruct Hok. right. by exists values, value.
  - done.
  - destruct Hok. by left.
Qed.

Lemma validate_loop_offending db feats k ks :
  is_Some (PyDict.get feats k) → offending db feats k →
  ∃ e, validate_loop db feats (k :: ks) = inl e
       ∧ ((defines db !! k = None ∧ e = InvalidReinflectorFeature k)
          ∨ ∃ values value,
              defines db !! k = Some (Some values)
              ∧ PyDict.get feats k = Some value
              ∧ (value ∉ values)
              ∧ e = InvalidReinflectorFeatureValue k value).
Proof.
  intros _ [Hdef|(values & value & Hdef & Hvalue & Hnin)];
    cbn [validate_loop]; rewrite Hdef.
  - eexists. split; [done|]. by left.
  - rewrite (index_Some _ _ _ Hvalue). cbn [bind].
    rewrite bool_decide_eq_true_2 by done.
    eexists. split; [done|]. right. by exists values, value.
Qed.

Lemma first_offending db feats ks :
  Forall (λ k, k ∈ PyDict.keys feats) ks →
  Exists (offending db feats) ks →
  ∃ ks1 k ks2,
    ks = ks1 ++ k :: ks2
    ∧ Forall (λ k, k ∈ PyDict.keys feats ∧ ¬ offending db feats k) ks1
    ∧ offending db feats k.
Proof.
  induction 1 as [|k0 ks Hk0 Hks IH]; [by intros ?%Exists_nil|].
  intros Hex. destruct (offending_dec db feats k0) as [Hbad|Hok].
  - by exists [], k0, ks.
  - apply Exists_cons in Hex as [?|Hex]; [done|].
    destruct (IH Hex) as (ks1 & k & ks2 & -> & Hks1 & Hk).
    exists (k0 :: ks1), k, ks2. split; [done|]. split; [|done].
    by constructor.
Qed.

(** ** The call *)

Lemma reinflect_empty self word feats calls :
  analyze (_analyzer self) word = [] →
  reinflect dediac_ar self word feats calls = (inr [], calls).
Proof. unfold reinflect. by intros ->. Qed.

Lemma reinflect_nonempty self word feats calls :
  analyze (_analyzer self) word ≠ [] →
  reinflect dediac_ar self word feats calls
  = match validate (_db self) feats with
    | inl e => (inl e, calls)
    | inr _ =>
        analyses_loop dediac_ar self word feats (compute_has_clitics feats)
          (analyze (_analyzer self) word) [] calls
    end.
Proof.
  intros Hne. unfold reinflect.
  destruct (analyze (_analyzer self) word) as [|analysis analyses]; [done|].
  by rewrite bool_decide_eq_true_2.
Qed.

(** ** Rejection and validation *)

(** C2 (amended). An override on a feature of the default rule (not in
    the ignored set and, when a clitic is requested, not state, case or
    mood) whose value in a surviving analysis is the sentinel makes the
    merger reject that analysis: the generator is not invoked for it,
    it adds no form, and the call goes on as if the analysis were not
    in the analyzer's list. *)
Theorem na_override_excludes_analysis self word feats analysis lemma
    feat fvalue :
  analysis_filter dediac_ar word feats analysis = inr (Some lemma) →
  PyDict.get feats feat = Some fvalue →
  PyDict.get analysis feat = Some "na" →
  feat ∉ _IGNORED_FEATS →
  ¬ (compute_has_clitics feats = true ∧ feat ∈ _CLITIC_IGNORED_FEATS) →
  let has_clitics := compute_has_clitics feats in
  (∃ gf, feature_merger analysis feats has_clitics = inr (false, gf))
  ∧ (∀ before behind results calls,
       analyses_loop dediac_ar self word feats has_clitics
         (before ++ analysis :: behind) results calls
       = analyses_loop dediac_ar self word feats has_clitics
           (before ++ behind) results calls)
  ∧ (∀ before behind calls,
       analyze (_analyzer self) word = before ++ analysis :: behind →
       validate (_db self) feats = inr () →
       reinflect dediac_ar self word feats calls
       = analyses_loop dediac_ar self word feats has_clitics
           (before ++ behind) [] calls).
Proof.
  intros Hf Hfeat Hna Hign Hcl has_clitics.
  assert (∃ gf, feature_merger analysis feats has_clitics = inr (false, gf))
    as Hrej.
  { destruct (feature_merger_total analysis feats has_clitics)
      as (b & gf & Hm).
    exists gf. rewrite Hm. rewrite (feature_merger_valid _ _ _ _ _ Hm).
    replace (existsb _ _) with true; [done|].
    symmetry. apply existsb_exists. exists feat. split.
    - apply list_elem_of_In, PyDictFacts.get_Some_keys. by rewrite Hna.
    - unfold na_conflict, PyDict.mem. rewrite Hfeat, Hna.
      rewrite (bool_decide_eq_false_2 _ Hign).
      rewrite (bool_decide_eq_true_2 (Some "na" = Some "na")) by done.
      fold has_clitics in Hcl. destruct has_clitics; [|done].
      rewrite bool_decide_eq_false_2; [done|]. naive_solver. }
  assert (∀ analyses results calls,
    analyses_loop dediac_ar self word feats has_clitics
      (analysis :: analyses) results calls
    = analyses_loop dediac_ar self word feats has_clitics
        analyses results calls) as Hskip.
  { intros analyses results calls. destruct Hrej as [gf Hm].
    rewrite (analyses_loop_cons _ _ _ _ _ _ _ _ _ Hf).
    unfold invocation. by rewrite Hf, Hm. }
  assert (∀ before behind results calls,
    analyses_loop dediac_ar self word feats has_clitics
      (before ++ analysis :: behind) results calls
    = analyses_loop dediac_ar self word feats has_clitics
        (before ++ behind) results calls) as Hloop.
  { intros before behind results calls. rewrite !analyses_loop_app.
    destruct (analyses_loop _ _ _ _ _ before _ _) as [[e|results'] calls'];
      [done|]. apply Hskip. }
  split; [done|]. split; [done|].
  intros before behind calls Han Hval.
  rewrite reinflect_nonempty, Hval, Han; [apply Hloop|].
  rewrite Han. by destruct before.
Qed.

(** C3 (amended). When the analyzer gives at least one analysis and some
    key of the overrides fails validation, the call raises for the first
    such key in the overrides' order: the error for an unknown feature
    when the schema lacks the key, the error for an invalid value when
    the key's set of values lacks the override's. Nothing is returned
    and the generator is not invoked. *)
Theorem validation_failure_aborts self word feats calls feat :
  analyze (_analyzer self) word ≠ [] →
  feat ∈ PyDict.keys feats →
  offending (_db self) feats feat →
  ∃ ks1 k ks2,
    PyDict.keys feats = ks1 ++ k :: ks2
    ∧ Forall (λ k', ¬ offending (_db self) feats k') ks1
    ∧ ((defines (_db self) !! k = None
        ∧ reinflect dediac_ar self word feats calls
          = (inl (InvalidReinflectorFeature k), calls))
       ∨ ∃ values value,
           defines (_db self) !! k = Some (Some values)
           ∧ PyDict.get feats k = Some value
           ∧ (value ∉ values)
           ∧ reinflect dediac_ar self word feats calls
             = (inl (InvalidReinflectorFeatureValue k value), calls)).
Proof.
  intros Hne Hin Hbad.
  destruct (first_offending (_db self) feats (PyDict.keys feats))
    as (ks1 & k & ks2 & Hks & Hks1 & Hk).
  { by apply Forall_forall. }
  { apply Exists_exists. by exists feat. }
  exists ks1, k, ks2. split; [done|]. split.
  { eapply Forall_impl; [exact Hks1|]. by intros ? [_ ?]. }
  assert (is_Some (PyDict.get feats k)) as Hget.
  { apply PyDictFacts.get_Some_keys. rewrite Hks.
    apply elem_of_app. right. left. }
  destruct (validate_loop_offending (_db self) feats k ks2 Hget Hk)
    as (e & He & Hcase).
  rewrite reinflect_nonempty by done. unfold validate.
  rewrite Hks, (validate_loop_skip _ _ _ _ Hks1), He.
  destruct Hcase as [[Hdef ->]|(values & value & Hdef & Hv & Hnin & ->)].
  - by left.
  - right. by exists values, value.
Qed.

(** ** Clitics *)

Lemma existsb_elements (f : string → bool) (X : gset string) x :
  x ∈ X → f x = true → existsb f (elements X) = true.
Proof.
  intros Hin Hf. apply (proj2 (existsb_exists f (elements X))).
  exists x. split; [|exact Hf].
  apply list_elem_of_In, elem_of_elements. exact Hin.
Qed.

Lemma compute_has_clitics_true feats feat :
  feat ∈ _CLITIC_FEATS → PyDict.mem feats feat = true →
  compute_has_clitics feats = true.
Proof.
  intros Hin Hmem.
  exact (existsb_elements (λ feat, PyDict.mem feats feat) _CLITIC_FEATS
           feat Hin Hmem).
Qed.

Lemma get_without_clitic_ignored analysis k :
  k ∉ _CLITIC_IGNORED_FEATS →
  PyDict.get (without_clitic_ignored analysis) k = PyDict.get analysis k.
Proof.
  intros Hk. unfold without_clitic_ignored.
  pose proof (PyDictFacts.get_filter_key
                (λ k, k ∉ _CLITIC_IGNORED_FEATS) analysis k) as Hget.
  cbv beta in Hget. rewrite Hget.
  destruct (decide (k ∉ _CLITIC_IGNORED_FEATS)) as [_|Hin];
    [reflexivity|]. destruct (Hin Hk).
Qed.

Lemma keys_without_clitic_ignored analysis :
  PyDict.keys (without_clitic_ignored analysis)
  = filter (λ k, k ∉ _CLITIC_IGNORED_FEATS) (PyDict.keys analysis).
Proof.
  unfold without_clitic_ignored, PyDict.keys.
  induction analysis as [|[k v] analysis IH]; [done|].
  rewrite fmap_cons, !filter_cons. cbn [fst].
  destruct (decide (k ∉ _CLITIC_IGNORED_FEATS)); [|done].
  by rewrite fmap_cons, IH.
Qed.

Lemma merge_loop_without_clitic_ignored analysis feats ks generate_feats :
  merge_loop (without_clitic_ignored analysis) feats true
    (filter (λ k, k ∉ _CLITIC_IGNORED_FEATS) ks) generate_feats
  = merge_loop analysis feats true ks generate_feats.
Proof.
  revert generate_feats.
  induction ks as [|feat ks IH]; intros generate_feats; [done|].
  rewrite filter_cons.
  destruct (decide (feat ∉ _CLITIC_IGNORED_FEATS)) as [Hout|Hin].
  - cbn [merge_loop]. unfold index.
    rewrite (get_without_clitic_ignored _ _ Hout).
    destruct (bool_decide (feat ∈ _IGNORED_FEATS)); [apply IH|].
    destruct (bool_decide (feat ∈ _SPECIFIED_FEATS)
              && negb (PyDict.mem feats feat)); [apply IH|].
    destruct (true && bool_decide (feat ∈ _CLITIC_IGNORED_FEATS));
      [apply IH|].
    destruct (PyDict.mem feats feat), (PyDict.get analysis feat);
      cbn [bind]; try done; case_bool_decide; try done;
      try apply IH.
    destruct (PyDict.get feats feat); cbn [bind]; [apply IH|done].
  - cbn [merge_loop]. rewrite IH.
    apply dec_stable in Hin. rewrite (bool_decide_eq_true_2 _ Hin).
    destruct (bool_decide (feat ∈ _IGNORED_FEATS)); [done|].
    by destruct (bool_decide (feat ∈ _SPECIFIED_FEATS)
                 && negb (PyDict.mem feats feat)).
Qed.

Lemma feature_merger_without_clitic_ignored analysis feats :
  feature_merger (without_clitic_ignored analysis) feats true
  = feature_merger analysis feats true.
Proof.
  unfold feature_merger. rewrite keys_without_clitic_ignored.
  apply merge_loop_without_clitic_ignored.
Qed.

Lemma analysis_filter_without_clitic_ignored word feats analysis :
  analysis_filter dediac_ar word feats (without_clitic_ignored analysis)
  = analysis_filter dediac_ar word feats analysis.
Proof.
  unfold analysis_filter, index.
  by rewrite !get_without_clitic_ignored by (by vm_compute).
Qed.

Lemma analyses_loop_without_clitic_ignored self self' word feats analyses
    results calls :
  _generator self' = _generator self →
  analyses_loop dediac_ar self' word feats true
    (map without_clitic_ignored analyses) results calls
  = analyses_loop dediac_ar self word feats true analyses results calls.
Proof.
  intros Hgen. revert results calls.
  induction analyses as [|analysis analyses IH]; intros results calls;
    [done|].
  cbn [map analyses_loop].
  rewrite analysis_filter_without_clitic_ignored,
    feature_merger_without_clitic_ignored, Hgen.
  destruct (analysis_filter dediac_ar word feats analysis) as [e|[lemma|]];
    [done| |apply IH].
  destruct (feature_merger analysis feats true) as [e|[[] gf]];
    [done| |apply IH].
  destruct (generate (_generator self) lemma gf); apply IH.
Qed.

(** C4. When the overrides have one of the five clitic features,
    [has_clitics] is true for the call. Then what the merger does with
    an analysis, its rejection included, is what it does with the
    analysis stripped of state, case and mood; no feature set it builds
    has one of the three; and the whole call gives what it gives on
    analyses stripped of them. *)
Theorem clitic_override_relaxes self word feats feat :
  feat ∈ _CLITIC_FEATS →
  PyDict.mem feats feat = true →
  let has_clitics := compute_has_clitics feats in
  has_clitics = true
  ∧ (∀ analysis,
       feature_merger analysis feats has_clitics
       = feature_merger (without_clitic_ignored analysis) feats has_clitics)
  ∧ (∀ analysis gf k,
       feature_merger analysis feats has_clitics = inr (true, gf) →
       k ∈ _CLITIC_IGNORED_FEATS → PyDict.get gf k = None)
  ∧ (∀ self' calls,
       _db self' = _db self → _generator self' = _generator self →
       analyze (_analyzer self') word
       = map without_clitic_ignored (analyze (_analyzer self) word) →
       reinflect dediac_ar self' word feats calls
       = reinflect dediac_ar self word feats calls).
Proof.
  intros Hin Hmem has_clitics.
  assert (has_clitics = true) as Htrue
    by (by eapply compute_has_clitics_true).
  rewrite Htrue. split; [done|]. split; [|split].
  - intros analysis. symmetry.
    apply feature_merger_without_clitic_ignored.
  - intros analysis gf k Hm Hk.
    rewrite (feature_merger_get _ _ _ _ _ Hm). unfold merged_value.
    destruct (PyDict.get analysis k); [|done].
    rewrite (bool_decide_eq_true_2 (k ∈ _CLITIC_IGNORED_FEATS)) by done.
    destruct (bool_decide (k ∈ _IGNORED_FEATS)); [done|].
    by destruct (bool_decide (k ∈ _SPECIFIED_FEATS)
                 && negb (PyDict.mem feats k)).
  - intros self' calls Hdb Hgen Han. unfold reinflect.
    rewrite Han, Hdb, length_map. fold has_clitics. rewrite Htrue.
    destruct (analyze (_analyzer self) word) as [|analysis analyses] eqn:Ha;
      [done|].
    rewrite <- Ha.
    rewrite (analyses_loop_without_clitic_ignored self self') by done.
    rewrite Ha. cbn [map].
    by rewrite !bool_decide_eq_true_2 by done.
Qed.

(** ** The filter's verdict *)

Lemma lemma_split_first (lex : string) :
  ∃ rest,
    lex = String.append (_LEMMA_SPLIT_RE_split lex).1 rest
    ∧ Forall (λ c, _LEMMA_SPLIT_RE c = false)
        (list_ascii_of_string (_LEMMA_SPLIT_RE_split lex).1)
    ∧ (rest = ""
       ∨ ∃ c rest', rest = String c rest' ∧ _LEMMA_SPLIT_RE c = true).
Proof.
  induction lex as [|c lex IH].
  - exists "". cbn. split; [done|]. split; [constructor|by left].
  - cbn [_LEMMA_SPLIT_RE_split].
    destruct (_LEMMA_SPLIT_RE_split lex) as [piece pieces].
    cbn [fst] in IH. destruct IH as (rest & Hlex & Hfirst & Hrest).
    destruct (_LEMMA_SPLIT_RE c) eqn:Hc; cbn [fst].
    + exists (String c lex). split; [done|]. split; [constructor|].
      right. by exists c, lex.
    + exists rest. split; [by subst lex|].
      split; [|done]. cbn. by constructor.
Qed.

(** C5. The filter drops an analysis exactly when, in this order, its
    surface form without diacritics differs from the word's, or the
    overrides give a part of speech other than the analysis's, or they
    give a lexeme other than the analysis's lemma; the lemma is the
    piece of the lexeme identifier before its first hyphen or
    underscore. The first test needs nothing but the surface form and
    the second no lexeme identifier. A dropped analysis raises nothing,
    invokes no generator and adds no form. *)
Theorem analysis_filter_drops self word feats analysis diac :
  PyDict.get analysis "diac" = Some diac →
  (dediac_ar diac ≠ dediac_ar word →
   analysis_filter dediac_ar word feats analysis = inr None)
  ∧ (∀ pos fpos,
       PyDict.get analysis "pos" = Some pos →
       PyDict.get feats "pos" = Some fpos → fpos ≠ pos →
       analysis_filter dediac_ar word feats analysis = inr None)
  ∧ (∀ pos lex,
       PyDict.get analysis "pos" = Some pos →
       PyDict.get analysis "lex" = Some lex →
       let lemma := (_LEMMA_SPLIT_RE_split lex).1 in
       (∀ flex, PyDict.get feats "lex" = Some flex → flex ≠ lemma →
                analysis_filter dediac_ar word feats analysis = inr None)
       ∧ (dediac_ar diac = dediac_ar word →
          (∀ fpos, PyDict.get feats "pos" = Some fpos → fpos = pos) →
          (∀ flex, PyDict.get feats "lex" = Some flex → flex = lemma) →
          analysis_filter dediac_ar word feats analysis = inr (Some lemma))
       ∧ ∃ rest,
           lex = String.append lemma rest
           ∧ Forall (λ c, _LEMMA_SPLIT_RE c = false)
               (list_ascii_of_string lemma)
           ∧ (rest = ""
              ∨ ∃ c rest',
                  rest = String c rest' ∧ _LEMMA_SPLIT_RE c = true))
  ∧ (analysis_filter dediac_ar word feats analysis = inr None →
     ∀ has_clitics analyses results calls,
       analyses_loop dediac_ar self word feats has_clitics
         (analysis :: analyses) results calls
       = analyses_loop dediac_ar self word feats has_clitics
           analyses results calls).
Proof.
  intros Hd. split; [|split; [|split]].
  - intros Hne. unfold analysis_filter, index. rewrite Hd. cbn [bind].
    by rewrite bool_decide_eq_true_2.
  - intros pos fpos Hp Hfp Hne.
    unfold analysis_filter, index, PyDict.mem. rewrite Hd, Hfp, Hp.
    cbn [bind]. case_bool_decide; [done|].
    by rewrite bool_decide_eq_true_2.
  - intros pos lex Hp Hl lemma. split; [|split].
    + intros flex Hfl Hne.
      unfold analysis_filter, index, PyDict.mem. rewrite Hd, Hfl, Hp, Hl.
      cbn [bind]. case_bool_decide; [done|].
      destruct (PyDict.get feats "pos"); cbn [bind];
        [case_bool_decide; [done|]|];
        fold lemma; by rewrite bool_decide_eq_true_2.
    + intros Heq Hpos Hlex.
      unfold analysis_filter, index, PyDict.mem. rewrite Hd, Hp, Hl.
      cbn [bind]. rewrite bool_decide_eq_false_2 by (by intros []).
      fold lemma.
      destruct (PyDict.get feats "pos") as [fpos|]; cbn [bind].
      * rewrite bool_decide_eq_false_2 by (intros []; by apply Hpos).
        destruct (PyDict.get feats "lex") as [flex|]; cbn [bind]; [|done].
        by rewrite bool_decide_eq_false_2 by (intros []; by apply Hlex).
      * destruct (PyDict.get feats "lex") as [flex|]; cbn [bind]; [|done].
        by rewrite bool_decide_eq_false_2 by (intros []; by apply Hlex).
    + apply lemma_split_first.
  - intros Hf has_clitics analyses results calls.
    rewrite (analyses_loop_cons _ _ _ _ _ _ _ _ _ Hf).
    unfold invocation. by rewrite Hf.
Qed.

(** C6. When the analyzer has no analysis of the word, the call returns
    the empty list, raises nothing and invokes no generator, whatever
    the overrides are. *)
Theorem reinflect_no_analyses self word feats calls :
  analyze (_analyzer self) word = [] →
  reinflect dediac_ar self word feats calls = (inr [], calls).
Proof. apply reinflect_empty. Qed.

(** C7. With analyses as the analyzer guarantees them and overrides that
    pass validation (or no analysis at all), the call returns the
    concatenation, in the analyzer's order, of what each analysis
    contributes: the generator's list, in the generator's order, for an
    analysis that the filter keeps and the merger accepts, and nothing
    for the others. The generator is invoked once for each of the
    former, in that order. *)
Theorem reinflect_concatenates self word feats calls :
  Forall well_formed (analyze (_analyzer self) word) →
  analyze (_analyzer self) word = [] ∨ validate (_db self) feats = inr () →
  let has_clitics := compute_has_clitics feats in
  reinflect dediac_ar self word feats calls
  = (inr (concat (map (contribution dediac_ar self word feats has_clitics)
                    (analyze (_analyzer self) word))),
     calls ++ omap (invocation dediac_ar word feats has_clitics)
                (analyze (_analyzer self) word)).
Proof.
  intros Hwf Hok has_clitics.
  destruct (decide (analyze (_analyzer self) word = [])) as [Hnil|Hne].
  - rewrite (reinflect_empty _ _ _ _ Hnil), Hnil. cbn.
    by rewrite app_nil_r.
  - destruct Hok as [?|Hval]; [done|].
    rewrite (reinflect_nonempty _ _ _ _ Hne), Hval.
    by rewrite (analyses_loop_spec _ _ _ _ _ _ _ Hwf).
Qed.

(** ** What reaches the generator *)

Lemma feature_merger_ok analysis feats has_clitics gf :
  feature_merger analysis feats has_clitics = inr (true, gf) →
  generation_feats_ok analysis feats gf.
Proof.
  intros Hm.
  assert (∀ k v, PyDict.get gf k = Some v →
    (k ∉ _IGNORED_FEATS)
    ∧ is_Some (PyDict.get analysis k)
    ∧ (PyDict.get feats k = Some v
       ∨ (PyDict.get feats k = None
          ∧ PyDict.get analysis k = Some v ∧ v ≠ "na"))) as Hget.
  { intros k v. rewrite (feature_merger_get _ _ _ _ _ Hm).
    unfold merged_value.
    destruct (PyDict.get analysis k) as [avalue|]; [|done].
    case_bool_decide as Hign; [done|].
    destruct (bool_decide (k ∈ _SPECIFIED_FEATS)
              && negb (PyDict.mem feats k)); [done|].
    destruct (has_clitics && bool_decide (k ∈ _CLITIC_IGNORED_FEATS));
      [done|].
    destruct (PyDict.get feats k) as [fvalue|].
    - intros [= <-]. split; [done|]. split; [by eexists|by left].
    - case_bool_decide; [|done]. intros [= <-].
      split; [done|]. split; [by eexists|]. by right. }
  split; [|split].
  - intros k [v Hv]%PyDictFacts.get_Some_keys.
    destruct (Hget k v Hv) as (? & ? & _).
    split; [by apply PyDictFacts.get_Some_keys|done].
  - intros k Ha. rewrite (feature_merger_get _ _ _ _ _ Hm).
    by apply merged_value_absent.
  - intros k v Hv. by destruct (Hget k v Hv) as (_ & _ & ?).
Qed.

Lemma analyses_loop_processed self word feats has_clitics analyses
    results calls :
  ∃ processed,
    processed `prefix_of` analyses
    ∧ (analyses_loop dediac_ar self word feats has_clitics analyses
         results calls).2
      = calls ++ omap (invocation dediac_ar word feats has_clitics) processed
    ∧ (∀ forms,
         (analyses_loop dediac_ar self word feats has_clitics analyses
            results calls).1 = inr forms →
         processed = analyses).
Proof.
  revert results calls.
  induction analyses as [|analysis analyses IH]; intros results calls.
  - exists []. cbn. by rewrite app_nil_r.
  - destruct (analysis_filter dediac_ar word feats analysis) as [e|o] eqn:Hf.
    + rewrite (analyses_loop_raise _ _ _ _ _ _ _ _ e Hf).
      exists []. cbn. rewrite app_nil_r.
      split; [apply prefix_nil|]. by split.
    + rewrite (analyses_loop_cons _ _ _ _ _ _ _ _ o Hf).
      destruct (invocation dediac_ar word feats has_clitics analysis)
        as [call|] eqn:Hinv.
      * destruct (IH (results ++ generated_forms self call)
                    (calls ++ [call])) as (processed & Hpre & -> & Hall).
        exists (analysis :: processed).
        split; [by apply prefix_cons|].
        split; [cbn; rewrite Hinv; by rewrite <- app_assoc|].
        intros forms Hforms. by rewrite (Hall forms Hforms).
      * destruct (IH results calls) as (processed & Hpre & -> & Hall).
        exists (analysis :: processed).
        split; [by apply prefix_cons|].
        split; [cbn; by rewrite Hinv|].
        intros forms Hforms. by rewrite (Hall forms Hforms).
Qed.

(** C8. The invocations of the generator during a call are, in order,
    those of the analyses the loop has gone through (all of them when
    the call returns): one for each analysis that the filter keeps and
    the merger accepts, with that analysis's lemma and with the feature
    set the merger has built from that very analysis. Such a feature set
    has its keys among the analysis's own keys outside the ignored set,
    so an override on a key the analysis lacks does not reach the
    generator; a value is the override's when the key is overridden, and
    otherwise the analysis's own value, which is then not the sentinel. *)
Theorem generator_feats_invariant self word feats calls :
  let has_clitics := compute_has_clitics feats in
  ∃ processed,
    processed `prefix_of` analyze (_analyzer self) word
    ∧ (reinflect dediac_ar self word feats calls).2
      = calls ++ omap (invocation dediac_ar word feats has_clitics) processed
    ∧ (∀ forms,
         (reinflect dediac_ar self word feats calls).1 = inr forms →
         processed = analyze (_analyzer self) word)
    ∧ (∀ analysis lemma gf,
         invocation dediac_ar word feats has_clitics analysis
         = Some (lemma, gf)
         ↔ analysis_filter dediac_ar word feats analysis = inr (Some lemma)
           ∧ feature_merger analysis feats has_clitics = inr (true, gf))
    ∧ (∀ analysis gf,
         feature_merger analysis feats has_clitics = inr (true, gf) →
         (∀ k, k ∈ PyDict.keys gf →
               k ∈ PyDict.keys analysis ∧ k ∉ _IGNORED_FEATS)
         ∧ (∀ k, PyDict.get analysis k = None → PyDict.get gf k = None)
         ∧ (∀ k v, PyDict.get gf k = Some v →
                   PyDict.get feats k = Some v
                   ∨ (PyDict.get feats k = None
                      ∧ PyDict.get analysis k = Some v ∧ v ≠ "na"))).
Proof.
  intros has_clitics.
  assert (∃ processed,
    processed `prefix_of` analyze (_analyzer self) word
    ∧ (reinflect dediac_ar self word feats calls).2
      = calls ++ omap (invocation dediac_ar word feats has_clitics) processed
    ∧ (∀ forms,
         (reinflect dediac_ar self word feats calls).1 = inr forms →
         processed = analyze (_analyzer self) word))
    as (processed & Hpre & Hlog & Hall).
  { destruct (decide (analyze (_analyzer self) word = [])) as [Hnil|Hne].
    { rewrite (reinflect_empty _ _ _ _ Hnil), Hnil. exists [].
      cbn. by rewrite app_nil_r. }
    rewrite (reinflect_nonempty _ _ _ _ Hne).
    destruct (validate (_db self) feats) as [e|[]].
    { exists []. cbn. rewrite app_nil_r.
      split; [apply prefix_nil|]. by split. }
    apply analyses_loop_processed. }
  exists processed. split; [done|]. split; [done|]. split; [done|].
  split.
  - intros analysis lemma gf. unfold invocation.
    destruct (analysis_filter dediac_ar word feats analysis)
      as [e|[lemma'|]]; [by split; [|intros [? _]]| |by split; [|intros [? _]]].
    destruct (feature_merger analysis feats has_clitics)
      as [e|[[] gf']].
    + by split; [|intros [_ ?]].
    + split; [by intros [= -> ->]|by intros [[= ->] [= ->]]].
    + by split; [|intros [_ ?]].
  - intros analysis gf Hm. by apply (feature_merger_ok _ _ _ _ Hm).
Qed.

(** ** Construction *)

(** C9. Over a database whose generation flag is false the constructor
    raises its error and gives no instance. *)
Theorem init_requires_generation
    (new_analyzer : CalimaStarDB → CalimaStarAnalyzer)
    (new_generator : CalimaStarDB → @CalimaStarGenerator Form)
    (db : CalimaStarDB) :
  flags_generation db = false →
  __init__ new_analyzer new_generator (DBObject db)
  = inl (ReinflectorError "DB does not support reinflection")
  ∧ ∀ self, __init__ new_analyzer new_generator (DBObject db) ≠ inr self.
Proof. intros Hflag. unfold __init__. rewrite Hflag. by split. Qed.

(** ** Repeated calls *)

Lemma reinflect_after self word feats calls :
  reinflect dediac_ar self word feats calls
  = after [] calls (reinflect dediac_ar self word feats []).
Proof.
  unfold reinflect.
  destruct (negb (bool_decide (analyze (_analyzer self) word ≠ []))
            || (length (analyze (_analyzer self) word) =? 0)%nat).
  { unfold after. cbn. by rewrite app_nil_r. }
  destruct (validate (_db self) feats) as [e|[]].
  { unfold after. cbn. by rewrite app_nil_r. }
  rewrite analyses_loop_after. unfold after. cbn [fst snd].
  by destruct (analyses_loop _ _ _ _ _ _ _ _).1.
Qed.

End Properties.

(** ** The call on the store *)

Section StoreProperties.

Context {Form : Type} (dediac_ar : string → string).
Implicit Types (h : gmap nat PyDict.t) (w : @World Form).

Lemma deref_insert_eq h r d : deref (<[r := d]> h) r = d.
Proof. unfold deref. by rewrite lookup_insert_eq. Qed.

Lemma deref_same h h' r : h' !! r = h !! r → deref h' r = deref h r.
Proof. unfold deref. by intros ->. Qed.

Lemma kept_dom h h' r :
  (∀ r, r ∈ dom h → h' !! r = h !! r) → r ∈ dom h → r ∈ dom h'.
Proof.
  intros Hkept Hr. apply elem_of_dom. rewrite (Hkept r Hr).
  by apply elem_of_dom.
Qed.

Lemma merge_loop_store_spec h analysis feats generate_feats has_clitics ks :
  generate_feats ≠ analysis →
  generate_feats ≠ feats →
  ∃ h',
    (∀ r, r ≠ generate_feats → h' !! r = h !! r)
    ∧ merge_loop_store h analysis feats generate_feats has_clitics ks
      = (match merge_loop (deref h analysis) (deref h feats) has_clitics ks
                 (deref h generate_feats) with
         | inl e => inl e
         | inr (is_valid, _) => inr is_valid
         end, h')
    ∧ (∀ is_valid gf,
         merge_loop (deref h analysis) (deref h feats) has_clitics ks
           (deref h generate_feats) = inr (is_valid, gf) →
         deref h' generate_feats = gf).
Proof.
  intros Hga Hgf. revert h.
  assert (∀ h k v,
    deref (setitem h generate_feats k v) analysis = deref h analysis
    ∧ deref (setitem h generate_feats k v) feats = deref h feats
    ∧ deref (setitem h generate_feats k v) generate_feats
      = PyDict.set (deref h generate_feats) k v
    ∧ ∀ r, r ≠ generate_feats →
           setitem h generate_feats k v !! r = h !! r) as Hset.
  { intros h k v. unfold setitem. split; [|split; [|split]].
    - apply deref_same. by rewrite lookup_insert_ne.
    - apply deref_same. by rewrite lookup_insert_ne.
    - apply deref_insert_eq.
    - intros r Hr. by rewrite lookup_insert_ne. }
  induction ks as [|feat ks IH]; intros h.
  { exists h. split; [done|]. split; [done|]. by intros ? ? [= _ <-]. }
  cbn [merge_loop_store merge_loop].
  destruct (bool_decide (feat ∈ _IGNORED_FEATS)); [apply IH|].
  destruct (bool_decide (feat ∈ _SPECIFIED_FEATS)
            && negb (PyDict.mem (deref h feats) feat)); [apply IH|].
  destruct (has_clitics && bool_decide (feat ∈ _CLITIC_IGNORED_FEATS));
    [apply IH|].
  destruct (PyDict.mem (deref h feats) feat).
  - destruct (index (deref h analysis) feat) as [e|avalue]; cbn [bind].
    { exists h. split; [done|]. split; [done|]. by intros. }
    case_bool_decide.
    + destruct (index (deref h feats) feat) as [e|fvalue]; cbn [bind].
      { exists h. split; [done|]. split; [done|]. by intros. }
      destruct (Hset h feat fvalue) as (Ha & Hf & Hg & Hother).
      destruct (IH (setitem h generate_feats feat fvalue))
        as (h' & Hkept & Hloop & Hgf').
      rewrite Ha, Hf, Hg in Hloop, Hgf'.
      exists h'. split; [|by split].
      intros r Hr. by rewrite (Hkept r Hr), (Hother r Hr).
    + exists h. split; [done|]. split; [done|]. by intros ? ? [= _ <-].
  - destruct (index (deref h analysis) feat) as [e|avalue]; cbn [bind].
    { exists h. split; [done|]. split; [done|]. by intros. }
    case_bool_decide; [|apply IH].
    destruct (Hset h feat avalue) as (Ha & Hf & Hg & Hother).
    destruct (IH (setitem h generate_feats feat avalue))
      as (h' & Hkept & Hloop & Hgf').
    rewrite Ha, Hf, Hg in Hloop, Hgf'.
    exists h'. split; [|by split].
    intros r Hr. by rewrite (Hkept r Hr), (Hother r Hr).
Qed.

Lemma map_deref_same h h' (refs : list nat) :
  (∀ r, r ∈ dom h → h' !! r = h !! r) →
  Forall (λ r, r ∈ dom h) refs →
  map (deref h') refs = map (deref h) refs.
Proof.
  intros Hkept Hrefs. induction Hrefs as [|r refs Hr _ IH]; [done|].
  cbn. by rewrite IH, (deref_same h h' r (Hkept r Hr)).
Qed.

Lemma analyses_loop_store_spec (self : @CalimaStarReinflector Form) word
    (feats : nat) has_clitics (analyses : list nat) (results : list Form)
    h (calls : list GenCall) :
  feats ∈ dom h →
  Forall (λ r, r ∈ dom h) analyses →
  ∃ h',
    (∀ r, r ∈ dom h → h' !! r = h !! r)
    ∧ analyses_loop_store dediac_ar (_generator self) word feats has_clitics
        analyses results h calls
      = ((analyses_loop dediac_ar self word (deref h feats) has_clitics
            (map (deref h) analyses) results calls).1,
         h',
         (analyses_loop dediac_ar self word (deref h feats) has_clitics
            (map (deref h) analyses) results calls).2).
Proof.
  revert results h calls.
  induction analyses as [|analysis analyses IH];
    intros results h calls Hfeats Hrefs.
  { by exists h. }
  apply Forall_cons in Hrefs as [Hanalysis Hrefs].
  cbn [analyses_loop_store map analyses_loop].
  destruct (analysis_filter dediac_ar word (deref h feats)
              (deref h analysis)) as [e|[lemma|]].
  { by exists h. }
  2: { by apply IH. }
  set (g := fresh (dom h)).
  assert (g ∉ dom h) as Hfresh by apply is_fresh.
  assert (g ≠ analysis) as Hga by (by intros ->).
  assert (g ≠ feats) as Hgf by (by intros ->).
  destruct (merge_loop_store_spec (<[g := []]> h) analysis feats g
              has_clitics
              (PyDict.keys (deref (<[g := []]> h) analysis)) Hga Hgf)
    as (h2 & Hkept & -> & Hresult).
  assert (deref (<[g := []]> h) analysis = deref h analysis) as Ha
    by (apply deref_same; by rewrite lookup_insert_ne).
  assert (deref (<[g := []]> h) feats = deref h feats) as Hf
    by (apply deref_same; by rewrite lookup_insert_ne).
  rewrite Ha, Hf, deref_insert_eq in Hresult |- *.
  assert (∀ r, r ∈ dom h → h2 !! r = h !! r) as Hkept2.
  { intros r Hr. assert (r ≠ g) as Hne by (by intros ->).
    by rewrite (Hkept r Hne), lookup_insert_ne. }
  assert (∀ results calls, ∃ h',
    (∀ r, r ∈ dom h → h' !! r = h !! r)
    ∧ analyses_loop_store dediac_ar (_generator self) word feats has_clitics
        analyses results h2 calls
      = ((analyses_loop dediac_ar self word (deref h feats) has_clitics
            (map (deref h) analyses) results calls).1,
         h',
         (analyses_loop dediac_ar self word (deref h feats) has_clitics
            (map (deref h) analyses) results calls).2)) as Hnext.
  { intros results' calls'.
    destruct (IH results' h2 calls') as (h' & Hkept' & Hloop).
    - by apply (kept_dom h).
    - eapply Forall_impl; [exact Hrefs|]. intros r Hr. by apply (kept_dom h).
    - exists h'. split.
      + intros r Hr. rewrite Hkept' by (by apply (kept_dom h)).
        by apply Hkept2.
      + rewrite Hloop, (map_deref_same h h2 analyses Hkept2 Hrefs).
        by rewrite (deref_same h h2 feats (Hkept2 feats Hfeats)). }
  unfold feature_merger.
  destruct (merge_loop (deref h analysis) (deref h feats) has_clitics
              (PyDict.keys (deref h analysis)) []) as [e|[[] gf]] eqn:Hm.
  - by exists h2.
  - rewrite (Hresult true gf eq_refl).
    destruct (generate (_generator self) lemma gf); apply Hnext.
  - apply Hnext.
Qed.

Lemma reinflect_store_spec w word (feats : nat) :
  feats ∈ dom (heap w) →
  Forall (λ r, r ∈ dom (heap w)) (obj_analyze (self_obj w) word) →
  ∃ h',
    (∀ r, r ∈ dom (heap w) → h' !! r = heap w !! r)
    ∧ reinflect_store dediac_ar w word feats
      = ((reinflect dediac_ar (reinflector_of w) word
            (deref (heap w) feats) (log w)).1,
         {| self_obj := self_obj w;
            heap := h';
            log := (reinflect dediac_ar (reinflector_of w) word
                      (deref (heap w) feats) (log w)).2 |}).
Proof.
  intros Hfeats Hrefs. unfold reinflect_store, reinflect.
  cbn [reinflector_of _analyzer analyze _db _generator].
  rewrite length_map.
  destruct (obj_analyze (self_obj w) word) as [|analysis analyses] eqn:Hrs.
  { exists (heap w). split; [done|]. cbn. by destruct w. }
  cbn [map length Nat.eqb orb].
  rewrite !bool_decide_eq_true_2 by done. cbn [negb orb].
  destruct (validate (obj_db (self_obj w)) (deref (heap w) feats)) as [e|[]].
  { exists (heap w). split; [done|]. cbn. by destruct w. }
  destruct (analyses_loop_store_spec (reinflector_of w) word feats
              (compute_has_clitics (deref (heap w) feats))
              (analysis :: analyses) [] (heap w) (log w) Hfeats Hrefs)
    as (h' & Hkept & Hloop).
  cbn [reinflector_of _generator] in Hloop. rewrite Hloop.
  exists h'. by split.
Qed.

Lemma analyses_loop_same_generator (self self' : @CalimaStarReinflector Form)
    word feats has_clitics analyses results calls :
  _generator self' = _generator self →
  analyses_loop dediac_ar self' word feats has_clitics analyses results calls
  = analyses_loop dediac_ar self word feats has_clitics analyses results calls.
Proof.
  intros Hgen. revert results calls.
  induction analyses as [|analysis analyses IH]; intros results calls;
    [done|].
  cbn [analyses_loop]. rewrite Hgen.
  destruct (analysis_filter dediac_ar word feats analysis) as [e|[lemma|]];
    [done| |apply IH].
  destruct (feature_merger analysis feats has_clitics) as [e|[[] gf]];
    [done| |apply IH].
  destruct (generate (_generator self) lemma gf); apply IH.
Qed.

Lemma reinflect_same_instance (self self' : @CalimaStarReinflector Form)
    word feats calls :
  _db self' = _db self →
  _generator self' = _generator self →
  analyze (_analyzer self') word = analyze (_analyzer self) word →
  reinflect dediac_ar self' word feats calls
  = reinflect dediac_ar self word feats calls.
Proof.
  intros Hdb Hgen Han. unfold reinflect. rewrite Hdb, Han.
  by rewrite (analyses_loop_same_generator self self') by done.
Qed.

(** C10. Take a state in which the overrides and the analyses the
    analyzer holds for the word are dictionaries of the store. A call
    leaves the instance and every dictionary that was in the store as
    they were (it writes to dictionaries it has made itself, and to
    nothing else), and a second call with the same word and the same
    overrides, made in the state the first one has left, returns or
    raises what the first did and invokes the generator in the same
    way. What a call returns is what the call on the analyses
    themselves returns. *)
Theorem reinflect_deterministic w word (feats : nat) :
  feats ∈ dom (heap w) →
  Forall (λ r, r ∈ dom (heap w)) (obj_analyze (self_obj w) word) →
  let first := reinflect_store dediac_ar w word feats in
  let second := reinflect_store dediac_ar first.2 word feats in
  second.1 = first.1
  ∧ self_obj first.2 = self_obj w
  ∧ (∀ r, r ∈ dom (heap w) → heap first.2 !! r = heap w !! r)
  ∧ (∃ new, log first.2 = log w ++ new ∧ log second.2 = log first.2 ++ new)
  ∧ first.1 = (reinflect dediac_ar (reinflector_of w) word
                 (deref (heap w) feats) (log w)).1.
Proof.
  intros Hfeats Hrefs first second.
  destruct (reinflect_store_spec w word feats Hfeats Hrefs)
    as (h1 & Hkept & Hfirst).
  assert (first.2 = {| self_obj := self_obj w; heap := h1;
                       log := (reinflect dediac_ar (reinflector_of w) word
                                 (deref (heap w) feats) (log w)).2 |})
    as Hw1 by (unfold first; by rewrite Hfirst).
  assert (first.1 = (reinflect dediac_ar (reinflector_of w) word
                       (deref (heap w) feats) (log w)).1)
    as Hr1 by (unfold first; by rewrite Hfirst).
  destruct (reinflect_store_spec first.2 word feats)
    as (h2 & _ & Hsecond).
  { rewrite Hw1. cbn. by apply (kept_dom (heap w)). }
  { rewrite Hw1. cbn. eapply Forall_impl; [exact Hrefs|].
    intros r Hr. by apply (kept_dom (heap w)). }
  assert (∀ calls,
    reinflect dediac_ar (reinflector_of first.2) word
      (deref (heap first.2) feats) calls
    = reinflect dediac_ar (reinflector_of w) word
        (deref (heap w) feats) calls) as Hsame.
  { intros calls. rewrite Hw1. cbn [heap].
    rewrite (deref_same (heap w) h1 feats (Hkept feats Hfeats)).
    apply reinflect_same_instance; [done|done|].
    cbn. by apply map_deref_same. }
  fold second in Hsecond. rewrite Hsame in Hsecond.
  split; [|split; [|split; [|split]]].
  - rewrite Hsecond, Hr1. cbn [fst].
    rewrite (reinflect_after dediac_ar _ word _ (log first.2)).
    rewrite (reinflect_after dediac_ar _ word _ (log w)). done.
  - by rewrite Hw1.
  - intros r Hr. rewrite Hw1. cbn. by apply Hkept.
  - exists (reinflect dediac_ar (reinflector_of w) word
              (deref (heap w) feats) []).2.
    rewrite Hsecond. cbn [snd log]. rewrite Hw1 at 1. cbn [log].
    rewrite (reinflect_after dediac_ar _ word _ (log first.2)).
    rewrite (reinflect_after dediac_ar _ word _ (log w)). done.
  - exact Hr1.
Qed.

End StoreProperties.

(** ** The properties on the sample data *)


Lemma na_override_not_always_excluded :
  let feats := [("stt", "d"); ("enc0", "3ms_dobj")] in
  let gf := [("pos", "verb"); ("gen", "m"); ("num", "s");
             ("enc0", "3ms_dobj")] in
  (PyDict.get feats "stt" = Some "d"
   ∧ PyDict.get sample_verb "stt" = Some "na"
   ∧ analysis_filter sample_dediac "katab" feats sample_verb
     = inr (Some "katab")
   ∧ reinflect sample_dediac sample_reinflector "katab" feats []
     = (inr [("katab", gf)], [("katab", gf)]))
  ∧ (PyDict.get [("gloss", "write")] "gloss" = Some "write"
     ∧ PyDict.get sample_verb "gloss" = Some "na"
     ∧ analysis_filter sample_dediac "katab" [("gloss", "write")] sample_verb
       = inr (Some "katab")
     ∧ reinflect sample_dediac sample_reinflector "katab"
         [("gloss", "write")] []
       = (inr [("katab", [("pos", "verb"); ("gen", "m"); ("num", "s");
                          ("mod", "i"); ("enc0", "0")])],
          [("katab", [("pos", "verb"); ("gen", "m"); ("num", "s");
                      ("mod", "i"); ("enc0", "0")])])).
Proof. vm_compute. repeat split. Qed.

Lemma na_override_excludes_analysis_witness :
  ∃ gf,
    feature_merger sample_verb [("stt", "d")]
      (compute_has_clitics [("stt", "d")]) = inr (false, gf).
Proof.
  refine (proj1 (na_override_excludes_analysis sample_dediac
    sample_reinflector "katab" [("stt", "d")] sample_verb "katab" "stt" "d"
    _ _ _ _ _)).
  - vm_compute. reflexivity.
  - vm_compute. reflexivity.
  - vm_compute. reflexivity.
  - apply (bool_decide_eq_false_1 _). vm_compute. reflexivity.
  - intros [Hcl _]. vm_compute in Hcl. discriminate Hcl.
Defined.

Lemma validation_not_always_raised :
  (defines sample_db !! "foo" = None
   ∧ reinflect sample_dediac sample_reinflector "qalam" [("foo", "bar")] []
     = (inr [], []))
  ∧ (defines sample_db !! "foo" = None
     ∧ "foo" ∈ PyDict.keys [("gen", "x"); ("foo", "bar")]
     ∧ reinflect sample_dediac sample_reinflector "kitAb"
         [("gen", "x"); ("foo", "bar")] []
       = (inl (InvalidReinflectorFeatureValue "gen" "x"), []))
  ∧ (defines sample_db !! "gen" = Some (Some {[ "m"; "f" ]})
     ∧ PyDict.get [("foo", "bar"); ("gen", "x")] "gen" = Some "x"
     ∧ ("x" ∉ ({[ "m"; "f" ]} : gset string))
     ∧ reinflect sample_dediac sample_reinflector "kitAb"
         [("foo", "bar"); ("gen", "x")] []
       = (inl (InvalidReinflectorFeature "foo"), [])).
Proof.
  repeat split; try (vm_compute; reflexivity).
  - apply list_elem_of_In. vm_compute. right. left. reflexivity.
  - apply (bool_decide_eq_false_1 _). vm_compute. reflexivity.
Qed.

Lemma validation_failure_aborts_witness :
  ∃ ks1 k ks2,
    PyDict.keys [("num", "s"); ("gen", "x")] = ks1 ++ k :: ks2
    ∧ Forall (λ k', ¬ offending (_db sample_reinflector)
                      [("num", "s"); ("gen", "x")] k') ks1
    ∧ ((defines (_db sample_reinflector) !! k = None
        ∧ reinflect sample_dediac sample_reinflector "kitAb"
            [("num", "s"); ("gen", "x")] []
          = (inl (InvalidReinflectorFeature k), []))
       ∨ ∃ values value,
           defines (_db sample_reinflector) !! k = Some (Some values)
           ∧ PyDict.get [("num", "s"); ("gen", "x")] k = Some value
           ∧ (value ∉ values)
           ∧ reinflect sample_dediac sample_reinflector "kitAb"
               [("num", "s"); ("gen", "x")] []
             = (inl (InvalidReinflectorFeatureValue k value), [])).
Proof.
  apply (validation_failure_aborts sample_dediac sample_reinflector "kitAb"
           [("num", "s"); ("gen", "x")] [] "gen").
  - intros Hnil. vm_compute in Hnil. discriminate Hnil.
  - apply list_elem_of_In. vm_compute. right. left. reflexivity.
  - right. exists {[ "m"; "f" ]}, "x".
    split; [vm_compute; reflexivity|]. split; [vm_compute; reflexivity|].
    apply (bool_decide_eq_false_1 _). vm_compute. reflexivity.
Defined.

Lemma clitic_override_relaxes_witness :
  compute_has_clitics [("cas", "g"); ("enc0", "3ms_poss")] = true.
Proof.
  refine (proj1 (clitic_override_relaxes sample_dediac sample_reinflector
                   "kitAb" [("cas", "g"); ("enc0", "3ms_poss")] "enc0" _ _)).
  - apply (bool_decide_eq_true_1 _). vm_compute. reflexivity.
  - vm_compute. reflexivity.
Defined.

Lemma analysis_filter_drops_witness :
  analysis_filter sample_dediac "kitAb" [("pos", "verb")] sample_noun
  = inr None.
Proof.
  refine (proj1 (proj2 (analysis_filter_drops sample_dediac
    sample_reinflector "kitAb" [("pos", "verb")] sample_noun "kitAb" _))
    "noun" "verb" _ _ _).
  - vm_compute. reflexivity.
  - vm_compute. reflexivity.
  - vm_compute. reflexivity.
  - intros Heq. discriminate Heq.
Defined.

Lemma reinflect_no_analyses_witness :
  reinflect sample_dediac sample_reinflector "qalam" [("foo", "bar")] []
  = (inr [], []).
Proof.
  apply (reinflect_no_analyses sample_dediac sample_reinflector "qalam"
           [("foo", "bar")] []).
  vm_compute. reflexivity.
Defined.

Lemma reinflect_concatenates_witness :
  reinflect sample_dediac sample_reinflector "katab" [("gen", "f")] []
  = (inr (concat (map (contribution sample_dediac sample_reinflector "katab"
                         [("gen", "f")] (compute_has_clitics [("gen", "f")]))
                    (analyze (_analyzer sample_reinflector) "katab"))),
     [] ++ omap (invocation sample_dediac "katab" [("gen", "f")]
                   (compute_has_clitics [("gen", "f")]))
             (analyze (_analyzer sample_reinflector) "katab")).
Proof.
  apply (reinflect_concatenates sample_dediac sample_reinflector "katab"
           [("gen", "f")] []).
  - vm_compute. repeat constructor; eexists; reflexivity.
  - right. vm_compute. reflexivity.
Defined.

Lemma init_requires_generation_witness :
  __init__ (λ _, sample_analyzer) (λ _, sample_generator)
    (DBObject sample_db_no_generation)
  = inl (ReinflectorError "DB does not support reinflection").
Proof.
  refine (proj1 (init_requires_generation (λ _, sample_analyzer)
                   (λ _, sample_generator) sample_db_no_generation _)).
  vm_compute. reflexivity.
Defined.

Lemma reinflect_deterministic_witness :
  let first := reinflect_store sample_dediac sample_world "katab" 0 in
  let second := reinflect_store sample_dediac first.2 "katab" 0 in
  second.1 = first.1
  ∧ self_obj first.2 = self_obj sample_world
  ∧ (∀ r, r ∈ dom (heap sample_world) →
          heap first.2 !! r = heap sample_world !! r)
  ∧ (∃ new, log first.2 = log sample_world ++ new
            ∧ log second.2 = log first.2 ++ new)
  ∧ first.1 = (reinflect sample_dediac (reinflector_of sample_world) "katab"
                 (deref (heap sample_world) 0) (log sample_world)).1.
Proof.
  apply (reinflect_deterministic sample_dediac sample_world "katab" 0).
  - apply (bool_decide_eq_true_1 _). vm_compute. reflexivity.
  - apply (bool_decide_eq_true_1 _). vm_compute. reflexivity.
Defined.

(** The scenario of a word read as verb, noun, verb with the part of
    speech overridden to verb: the noun is dropped and the generator is
    invoked for the two verbs, in order. *)
Example reinflect_verb_noun_verb :
  let gf := [("pos", "verb"); ("gen", "m"); ("num", "s"); ("mod", "i");
             ("enc0", "0")] in
  reinflect sample_dediac sample_ambiguous "ktb" [("pos", "verb")] []
  = (inr [("katab", gf); ("katab", gf)], [("katab", gf); ("katab", gf)]).
Proof. vm_compute. reflexivity. Qed.
